(** * storefront: the [playground] views and routes, and the [tags] models

    A shallow embedding of the application code of the repository
    (playground/views.py, playground/urls.py, tags/models.py) together with
    the fragment of the Django API that this code calls: the URL resolver,
    [django.shortcuts.render] with its template loader and context stack,
    and the ORM's save and delete on the two declared models.

    The application code lives in the modules [views], [urls] and [tags];
    the framework fragment it is written against lives in [django] and
    [models]. *)

From stdpp Require Import gmap strings list fin_maps pretty.
From Stdlib Require Import ZArith Ascii.

Local Open Scope Z_scope.

(** ** Results of fallible framework calls *)

Inductive exn :=
| TemplateDoesNotExist (template_name : string)
| Resolver404 (path_info : string)
| DataError
| IntegrityError
| OverflowError
| ProtectedError.

Inductive result (A : Type) :=
| Ok (a : A)
| Raise (e : exn).
Arguments Ok {A} a.
Arguments Raise {A} e.

Definition rbind {A B} (r : result A) (k : A → result B) : result B :=
  match r with
  | Ok a => k a
  | Raise e => Raise e
  end.

Notation "'try!' x := r 'in' k" := (rbind r (fun x => k))
  (at level 10, x name, r at level 100, k at level 200, only parsing).

(** ** The framework fragment used by [playground] *)

Module django.

(** Values a template context can hold. *)
Inductive value :=
| VStr (s : string)
| VInt (n : Z)
| VBool (b : bool)
| VNone.

(** [django.http.HttpRequest]: the fields a view can read. *)
Record HttpRequest := {
  method : string;
  path : string;
  GET : list (string * string);
  headers : list (string * string)
}.

(** [django.http.HttpResponse]. *)
Record HttpResponse := {
  status_code : Z;
  content : string
}.

(** A compiled template: literal text and [{{ var }}] nodes. *)
Inductive node :=
| TextNode (s : string)
| VariableNode (var : string).

(** What a call of [render] reads besides its arguments: the templates the
    loader can find, by name; the context processors listed in the template
    engine's OPTIONS; and the token [get_token] hands out on this call,
    which is masked afresh every time it is asked for. *)
Record settings := {
  templates : gmap string (list node);
  OPTIONS_context_processors : list (HttpRequest → gmap string value);
  csrf_token : string
}.

(** [django.template.context_processors.csrf]. *)
Definition csrf (cfg : settings) (request : HttpRequest) : gmap string value :=
  {[ "csrf_token" := VStr (csrf_token cfg) ]}.

(** [Engine.template_context_processors]: the csrf processor is built in
    and runs first, then the configured ones. *)
Definition context_processors (cfg : settings)
    : list (HttpRequest → gmap string value) :=
  csrf cfg :: OPTIONS_context_processors cfg.

(** [django.utils.html.escape]: the five characters HTML gives a meaning. *)
Definition escape_char (c : ascii) : string :=
  if Ascii.eqb c "&"%char then "&amp;"
  else if Ascii.eqb c "<"%char then "&lt;"
  else if Ascii.eqb c ">"%char then "&gt;"
  else if Ascii.eqb c "034"%char then "&quot;"
  else if Ascii.eqb c "'"%char then "&#x27;"
  else String c EmptyString.

Fixpoint escape (s : string) : string :=
  match s with
  | EmptyString => EmptyString
  | String c s' => escape_char c +:+ escape s'
  end.

(** [str(value)] followed by the auto-escaping of a variable node. *)
Definition render_value (v : value) : string :=
  match v with
  | VStr s => escape s
  | VInt n => pretty n
  | VBool true => "True"
  | VBool false => "False"
  | VNone => "None"
  end.

(** A variable that the context does not bind renders as
    [string_if_invalid], the empty string. *)
Definition render_node (ctx : gmap string value) (n : node) : string :=
  match n with
  | TextNode s => s
  | VariableNode var =>
      match ctx !! var with
      | Some v => render_value v
      | None => ""
      end
  end.

Fixpoint render_nodelist (ctx : gmap string value) (ns : list node) : string :=
  match ns with
  | [] => ""
  | n :: ns' => render_node ctx n +:+ render_nodelist ctx ns'
  end.

(** The bottom layer of every context. *)
Definition builtins : gmap string value :=
  {[ "True" := VBool true; "False" := VBool false; "None" := VNone ]}.

(** [RequestContext.bind_template]: each processor's dictionary updates
    the ones before it. *)
Definition run_processors (ps : list (HttpRequest → gmap string value))
    (request : HttpRequest) : gmap string value :=
  foldl (fun acc p => p request ∪ acc) ∅ ps.

(** [make_context]: the dictionary given by the view is pushed last, so
    it is looked up first; then the processors' layer, then the builtins. *)
Definition make_context (ps : list (HttpRequest → gmap string value))
    (request : HttpRequest) (context : gmap string value) : gmap string value :=
  context ∪ (run_processors ps request ∪ builtins).

(** [django.template.loader.get_template]. *)
Definition get_template (cfg : settings) (template_name : string)
    : result (list node) :=
  match templates cfg !! template_name with
  | Some t => Ok t
  | None => Raise (TemplateDoesNotExist template_name)
  end.

(** [django.shortcuts.render(request, template_name, context)], with the
    default [content_type] and [status]. *)
Definition render (request : HttpRequest) (template_name : string)
    (context : gmap string value) (cfg : settings) : result HttpResponse :=
  try! t := get_template cfg template_name in
  Ok {| status_code := 200;
        content := render_nodelist
                     (make_context (context_processors cfg) request context) t |}.

(** [django.urls.path(route, view)]: an endpoint pattern with no
    converters. *)
Record URLPattern := {
  route : string;
  callback : HttpRequest → settings → result HttpResponse
}.

Definition url_path (route : string)
    (view : HttpRequest → settings → result HttpResponse) : URLPattern :=
  {| route := route; callback := view |}.

(** [RoutePattern.match] for an endpoint without converters: the rest of
    the path has to be the route itself. *)
Definition route_match (p : URLPattern) (rest : string) : bool :=
  bool_decide (route p = rest).

(** [URLResolver.resolve]: the leading slash is consumed by the root
    resolver, then the patterns are tried in order on the rest.  The
    [Resolver404] carries the path that was left to match. *)
Fixpoint resolve_in (patterns : list URLPattern) (rest : string)
    : option URLPattern :=
  match patterns with
  | [] => None
  | p :: ps => if route_match p rest then Some p else resolve_in ps rest
  end.

Definition resolve (patterns : list URLPattern) (path_info : string)
    : result URLPattern :=
  match path_info with
  | String "/"%char rest =>
      match resolve_in patterns rest with
      | Some p => Ok p
      | None => Raise (Resolver404 rest)
      end
  | _ => Raise (Resolver404 path_info)
  end.

(** [BaseHandler._get_response] with no view middleware installed: resolve
    the path, call the view.  The project's settings, which list the
    middleware, are not among the sources. *)
Definition get_response (patterns : list URLPattern) (request : HttpRequest)
    (cfg : settings) : result HttpResponse :=
  try! p := resolve patterns (path request) in
  callback p request cfg.

End django.

(** ** playground/views.py *)

Module views.
Import django.

Definition say_hello (request : HttpRequest) : settings → result HttpResponse :=
  render request "hello.html" {[ "name" := VStr "Mostafa" ]}.

End views.

(** ** playground/urls.py *)

Module urls.
Import django.

Definition urlpatterns : list URLPattern :=
  [ url_path "hello/" views.say_hello ].

End urls.

(** Modelled from the spec: the project's root URL configuration is not
    among the sources.  The spec gives the HTTP surface as the one route
    [/hello/], so the patterns of playground/urls.py are the ones the root
    resolver consults for the whole path. *)
Definition ROOT_URLCONF : list django.URLPattern := urls.urlpatterns.

Definition application (request : django.HttpRequest) (cfg : django.settings)
    : result django.HttpResponse :=
  django.get_response ROOT_URLCONF request cfg.

(** ** The framework fragment used by [tags]: [django.db.models] *)

Module models.

(** The [on_delete] policies of a foreign key. *)
Inductive on_delete :=
| CASCADE
| PROTECT
| DO_NOTHING.

(** Field declarations, with the options the models of this repository set. *)
Inductive field :=
| CharField (max_length : Z)
| PositiveIntegerField
| ForeignKey (to : string) (policy : on_delete)
| GenericForeignKey (ct_field fk_field : string).

(** The database engines the models are run on. *)
Inductive backend :=
| SQLite
| PostgreSQL.

(** Text is a list of code points, so that its length counts characters.
    The null character, which a text column cannot hold on every engine,
    is not a code point here. *)
Definition text_of_literal (s : string) : list positive :=
  (λ c, Pos.of_nat (nat_of_ascii c)) <$> String.list_ascii_of_string s.

(** What a text column of the given field stores for a value.
    [Model.save] runs no validators, so [max_length] is only what the
    column type makes of it:
    - SQLite does not enforce the declared width and stores any text;
    - PostgreSQL stores a text of at most [max_length] characters as it
      is, cuts one whose excess characters are all spaces down to
      [max_length], and refuses any other with [DataError]. *)
Definition text_column (engine : backend) (f : field) (s : list positive)
    : result (list positive) :=
  match f with
  | CharField max_length =>
      match engine with
      | SQLite => Ok s
      | PostgreSQL =>
          if bool_decide (Z.of_nat (length s) ≤ max_length) then Ok s
          else if forallb (Pos.eqb 32) (drop (Z.to_nat max_length) s)
               then Ok (take (Z.to_nat max_length) s)
               else Raise DataError
      end
  | _ => Raise DataError
  end.

(** What an integer column of the given field stores for a value.
    A [PositiveIntegerField] column carries the check [>= 0]:
    - on SQLite an integer that does not fit 64 bits cannot be bound
      ([OverflowError]), and a negative one fails the check;
    - on PostgreSQL an integer that does not fit 32 bits is out of range
      ([DataError]), and a negative one fails the check.
    A [ForeignKey] column holds the key of an existing row of the model it
    points to; [pks to] is the set of primary keys of that model's table. *)
Definition integer_column (engine : backend) (pks : string → gset Z)
    (f : field) (n : Z) : result Z :=
  match f with
  | PositiveIntegerField =>
      match engine with
      | SQLite =>
          if bool_decide (-9223372036854775808 ≤ n ≤ 9223372036854775807)
          then if bool_decide (0 ≤ n) then Ok n else Raise IntegrityError
          else Raise OverflowError
      | PostgreSQL =>
          if bool_decide (-2147483648 ≤ n ≤ 2147483647)
          then if bool_decide (0 ≤ n) then Ok n else Raise IntegrityError
          else Raise DataError
      end
  | ForeignKey to _ =>
      if bool_decide (n ∈ pks to) then Ok n else Raise IntegrityError
  | _ => Raise DataError
  end.

(** The primary key of the row [Model.save] writes.  An instance that has
    a key is written under it (an update, or an insert when no row has the
    key).  For one that has none, the table's auto-increment supplies
    [generated]; how it picks the key is the engine's business (SQLite goes
    past every key the table has held, a PostgreSQL sequence counts on its
    own), and a generated key that a row already has is refused. *)
Definition primary_key (used : gset Z) (pk : option Z) (generated : Z)
    : result Z :=
  match pk with
  | Some k => Ok k
  | None =>
      if bool_decide (generated ∈ used) then Raise IntegrityError
      else Ok generated
  end.

Definition policy_of (f : field) : on_delete :=
  match f with
  | ForeignKey _ policy => policy
  | _ => DO_NOTHING
  end.

(** The deletion collector on one referencing table: [refers] tells the rows
    whose foreign key points at the row being deleted. *)
Definition collect {A} (policy : on_delete) (refers : A → bool)
    (table : gmap Z A) : result (gmap Z A) :=
  match policy with
  | CASCADE => Ok (filter (λ kv, refers kv.2 = false) table)
  | PROTECT =>
      if bool_decide (filter (λ kv, refers kv.2 = true) table = ∅)
      then Ok table else Raise ProtectedError
  | DO_NOTHING =>
      if bool_decide (filter (λ kv, refers kv.2 = true) table = ∅)
      then Ok table else Raise IntegrityError
  end.

(** [django.contrib.contenttypes.models.ContentType]. *)
Record ContentType := {
  app_label : string;
  model : string
}.

End models.

(** ** tags/models.py *)

Module tags.
Import models.

Record Tag := {
  label : list positive
}.

Record TaggedItem := {
  tag : Z;
  content_type : Z;
  object_id : Z
}.

(** The field declarations of the two models. *)
Definition Tag_label : field := CharField 255.
Definition TaggedItem_tag : field := ForeignKey "Tag" CASCADE.
Definition TaggedItem_content_type : field := ForeignKey "ContentType" CASCADE.
Definition TaggedItem_object_id : field := PositiveIntegerField.
Definition TaggedItem_content_object : field :=
  GenericForeignKey "content_type" "object_id".

(** The persisted state: the engine that holds it, the two tables of this
    app, the framework's content-type table, and the primary keys present
    in the tables of the other apps, by (app label, model name). *)
Record Database := {
  engine : backend;
  tag_table : gmap Z Tag;
  taggeditem_table : gmap Z TaggedItem;
  contenttype_table : gmap Z ContentType;
  other_tables : gmap (string * string) (gset Z)
}.

Definition pks (db : Database) (to : string) : gset Z :=
  if bool_decide (to = "Tag") then dom (tag_table db)
  else if bool_decide (to = "TaggedItem") then dom (taggeditem_table db)
  else if bool_decide (to = "ContentType") then dom (contenttype_table db)
  else ∅.

(** [ContentType.model_class] followed by the keys of that model's table. *)
Definition rows_of (db : Database) (ct : ContentType) : gset Z :=
  let key := (app_label ct, model ct) in
  if bool_decide (key = ("tags", "tag")) then dom (tag_table db)
  else if bool_decide (key = ("tags", "taggeditem")) then dom (taggeditem_table db)
  else if bool_decide (key = ("contenttypes", "contenttype"))
       then dom (contenttype_table db)
  else default ∅ (other_tables db !! key).

(** Reading [content_object]: the content type is looked up, then the row
    with key [object_id] in that type's table; [None] when either is
    missing. *)
Definition content_object (db : Database) (item : TaggedItem)
    : option (ContentType * Z) :=
  match contenttype_table db !! content_type item with
  | Some ct =>
      if bool_decide (object_id item ∈ rows_of db ct)
      then Some (ct, object_id item) else None
  | None => None
  end.

(** [Model.save] of a Tag: the label goes through its column, the row is
    written under its primary key. *)
Definition save_tag (db : Database) (pk : option Z) (generated : Z) (t : Tag)
    : result (Z * Database) :=
  try! stored := text_column (engine db) Tag_label (label t) in
  try! k := primary_key (dom (tag_table db)) pk generated in
  Ok (k, {| engine := engine db;
            tag_table := <[k := {| label := stored |}]> (tag_table db);
            taggeditem_table := taggeditem_table db;
            contenttype_table := contenttype_table db;
            other_tables := other_tables db |}).

(** [Model.save] of a TaggedItem: [object_id] goes through its column when
    the statement runs, the two foreign keys are checked when it commits.
    [content_object] has no column; nothing looks at what the pair
    [(content_type, object_id)] points to. *)
Definition save_tagged_item (db : Database) (pk : option Z) (generated : Z)
    (item : TaggedItem) : result (Z * Database) :=
  try! _ := integer_column (engine db) (pks db) TaggedItem_object_id
              (object_id item) in
  try! k := primary_key (dom (taggeditem_table db)) pk generated in
  try! _ := integer_column (engine db) (pks db) TaggedItem_tag (tag item) in
  try! _ := integer_column (engine db) (pks db) TaggedItem_content_type
              (content_type item) in
  Ok (k, {| engine := engine db;
            tag_table := tag_table db;
            taggeditem_table := <[k := item]> (taggeditem_table db);
            contenttype_table := contenttype_table db;
            other_tables := other_tables db |}).

(** [Model.delete]: the collector gathers the rows that refer to the one
    being deleted, by the policy declared on the referring field. *)
Definition delete_tag (db : Database) (k : Z) : result Database :=
  match tag_table db !! k with
  | None => Ok db
  | Some _ =>
      try! items := collect (policy_of TaggedItem_tag)
                      (λ item, bool_decide (tag item = k))
                      (taggeditem_table db) in
      Ok {| engine := engine db;
            tag_table := delete k (tag_table db);
            taggeditem_table := items;
            contenttype_table := contenttype_table db;
            other_tables := other_tables db |}
  end.

Definition delete_content_type (db : Database) (k : Z) : result Database :=
  match contenttype_table db !! k with
  | None => Ok db
  | Some _ =>
      try! items := collect (policy_of TaggedItem_content_type)
                      (λ item, bool_decide (content_type item = k))
                      (taggeditem_table db) in
      Ok {| engine := engine db;
            tag_table := tag_table db;
            taggeditem_table := items;
            contenttype_table := delete k (contenttype_table db);
            other_tables := other_tables db |}
  end.

Definition delete_tagged_item (db : Database) (k : Z) : result Database :=
  Ok {| engine := engine db;
        tag_table := tag_table db;
        taggeditem_table := delete k (taggeditem_table db);
        contenttype_table := contenttype_table db;
        other_tables := other_tables db |}.

(** The operations on the stored state, and the states they can reach from
    one in which the two tables of this app are still empty. *)
Inductive op :=
| SaveTag (pk : option Z) (generated : Z) (t : Tag)
| SaveTaggedItem (pk : option Z) (generated : Z) (item : TaggedItem)
| DeleteTag (k : Z)
| DeleteTaggedItem (k : Z)
| DeleteContentType (k : Z).

Definition exec (db : Database) (o : op) : result Database :=
  match o with
  | SaveTag pk generated t =>
      try! r := save_tag db pk generated t in Ok r.2
  | SaveTaggedItem pk generated item =>
      try! r := save_tagged_item db pk generated item in Ok r.2
  | DeleteTag k => delete_tag db k
  | DeleteTaggedItem k => delete_tagged_item db k
  | DeleteContentType k => delete_content_type db k
  end.

Inductive reachable : Database → Prop :=
| reach_init db :
    tag_table db = ∅ → taggeditem_table db = ∅ → reachable db
| reach_step db o db' :
    reachable db → exec db o = Ok db' → reachable db'.

End tags.

(** ** Vocabulary of the statements *)

(** Referential integrity: the rows a stored TaggedItem names in its two
    foreign keys exist. *)
Definition foreign_keys_hold (db : tags.Database) : Prop :=
  ∀ i item, tags.taggeditem_table db !! i = Some item →
    tags.tag item ∈ dom (tags.tag_table db) ∧
    tags.content_type item ∈ dom (tags.contenttype_table db).

(** [needle in haystack], on text. *)
Definition contains (needle haystack : string) : Prop :=
  ∃ before after, haystack = before +:+ needle +:+ after.

(** Configurations, requests and databases to run the definitions on. *)
Module sample.
Import django.

(** A [hello.html] that greets [name]. *)
Definition hello_html : list node :=
  [ TextNode "<h1>Hello "; VariableNode "name"; TextNode "</h1>" ].

Definition cfg : settings :=
  {| templates := {[ "hello.html" := hello_html ]};
     OPTIONS_context_processors := [];
     csrf_token := "Zm9vYmFy" |}.

Definition no_templates : settings :=
  {| templates := ∅; OPTIONS_context_processors := []; csrf_token := "Zm9vYmFy" |}.




Definition get_hello : HttpRequest :=
  {| method := "GET"; path := "/hello/"; GET := []; headers := [] |}.

Definition post_hello : HttpRequest :=
  {| method := "POST"; path := "/hello/";
     GET := [("name", "Eve")]; headers := [("Accept", "text/plain")] |}.

(** A database with one content type, [store.product], and products 1
    and 2; then with a tag, and with a tagged item whose object is product
    99, which does not exist. *)
Definition initial : tags.Database :=
  {| tags.engine := models.SQLite;
     tags.tag_table := ∅;
     tags.taggeditem_table := ∅;
     tags.contenttype_table :=
       {[ 7 := {| models.app_label := "store"; models.model := "product" |} ]};
     tags.other_tables := {[ ("store", "product") := {[ 1; 2 ]} ]} |}.

Definition sale : tags.Tag := {| tags.label := models.text_of_literal "sale" |}.

Definition product_99 : tags.TaggedItem :=
  {| tags.tag := 1; tags.content_type := 7; tags.object_id := 99 |}.

Definition with_tag : tags.Database :=
  {| tags.engine := models.SQLite;
     tags.tag_table := {[ 1 := sale ]};
     tags.taggeditem_table := ∅;
     tags.contenttype_table := tags.contenttype_table initial;
     tags.other_tables := tags.other_tables initial |}.

Definition with_item : tags.Database :=
  {| tags.engine := models.SQLite;
     tags.tag_table := {[ 1 := sale ]};
     tags.taggeditem_table := {[ 1 := product_99 ]};
     tags.contenttype_table := tags.contenttype_table initial;
     tags.other_tables := tags.other_tables initial |}.

(** The same on PostgreSQL. *)
Definition pg_initial : tags.Database :=
  {| tags.engine := models.PostgreSQL;
     tags.tag_table := ∅;
     tags.taggeditem_table := ∅;
     tags.contenttype_table := tags.contenttype_table initial;
     tags.other_tables := tags.other_tables initial |}.

Definition pg_with_tag : tags.Database :=
  {| tags.engine := models.PostgreSQL;
     tags.tag_table := {[ 1 := sale ]};
     tags.taggeditem_table := ∅;
     tags.contenttype_table := tags.contenttype_table initial;
     tags.other_tables := tags.other_tables initial |}.

(** A request for a path the URL configuration does not have. *)
Definition get_goodbye : HttpRequest :=
  {| method := "GET"; path := "/goodbye/"; GET := []; headers := [] |}.

(** A label one character over the declared maximum, and the SQLite
    database that holds a Tag with it. *)
Definition long_label : list positive := replicate 256 120%positive.

Definition too_long : tags.Tag := {| tags.label := long_label |}.

Definition with_long_tag : tags.Database :=
  {| tags.engine := models.SQLite;
     tags.tag_table := {[ 1 := too_long ]};
     tags.taggeditem_table := ∅;
     tags.contenttype_table := tags.contenttype_table initial;
     tags.other_tables := tags.other_tables initial |}.



(** A database in which tags are themselves tagged: content type 8 is
    [tags.tag], and item 1 puts tag 2 on the Tag row 1. *)
Definition tag_on_tag : tags.TaggedItem :=
  {| tags.tag := 2; tags.content_type := 8; tags.object_id := 1 |}.

Definition tagged_tags : tags.Database :=
  {| tags.engine := models.SQLite;
     tags.tag_table :=
       {[ 1 := sale; 2 := {| tags.label := models.text_of_literal "new" |} ]};
     tags.taggeditem_table := {[ 1 := tag_on_tag ]};
     tags.contenttype_table :=
       {[ 8 := {| models.app_label := "tags"; models.model := "tag" |} ]};
     tags.other_tables := ∅ |}.

End sample.

(** * Properties of [playground] *)

Section playground_properties.
Import django.

Lemma string_app_assoc (a b c : string) : (a +:+ b) +:+ c = a +:+ b +:+ c.
Proof.
  induction a as [|x a IH]; [reflexivity |].
  change (String x ((a +:+ b) +:+ c) = String x (a +:+ b +:+ c)).
  by rewrite IH.
Qed.

Lemma contains_app_r (needle pre s : string) :
  contains needle s → contains needle (pre +:+ s).
Proof.
  intros (before & after & ->).
  exists (pre +:+ before), after. by rewrite string_app_assoc.
Qed.

Lemma contains_app_l (needle post : string) :
  contains needle (needle +:+ post).
Proof. by exists "", post. Qed.

(** The text of a node appears in the rendering of any node list that has
    the node. *)
Lemma render_nodelist_contains ctx (n : node) (ns : list node) :
  n ∈ ns → contains (render_node ctx n) (render_nodelist ctx ns).
Proof.
  induction ns as [|m ns IH]; intros Hin.
  - by apply elem_of_nil in Hin.
  - apply elem_of_cons in Hin as [-> | Hin]; simpl.
    + apply contains_app_l.
    + by apply contains_app_r, IH.
Qed.

(** The dictionary a view passes shadows the processors and the builtins. *)
Lemma make_context_view_first ps request (context : gmap string value) k v :
  context !! k = Some v → make_context ps request context !! k = Some v.
Proof. intros H. unfold make_context. by apply lookup_union_Some_l. Qed.

Lemma run_processors_ext ps r1 r2 :
  (∀ p, p ∈ ps → p r1 = p r2) → run_processors ps r1 = run_processors ps r2.
Proof.
  unfold run_processors. generalize (∅ : gmap string value).
  induction ps as [|p ps IH]; intros acc Hps; simpl; [done |].
  rewrite (Hps p) by (apply elem_of_cons; by left).
  apply IH. intros q Hq. apply Hps. apply elem_of_cons; by right.
Qed.

(** [render] reads the request only through the context processors. *)
Lemma render_request_irrelevant cfg name context r1 r2 :
  (∀ p, p ∈ context_processors cfg → p r1 = p r2) →
  render r1 name context cfg = render r2 name context cfg.
Proof.
  intros Hps. unfold render, make_context.
  by rewrite (run_processors_ext _ r1 r2 Hps).
Qed.

Lemma render_found request name context cfg t :
  templates cfg !! name = Some t →
  render request name context cfg =
    Ok {| status_code := 200;
          content := render_nodelist
                       (make_context (context_processors cfg) request context) t |}.
Proof. intros H. unfold render, get_template. by rewrite H. Qed.

Lemma render_missing request name context cfg :
  templates cfg !! name = None →
  render request name context cfg = Raise (TemplateDoesNotExist name).
Proof. intros H. unfold render, get_template. by rewrite H. Qed.

Lemma resolve_hello :
  resolve urls.urlpatterns "/hello/" = Ok (url_path "hello/" views.say_hello).
Proof. reflexivity. Qed.

(** The only path the URL configuration resolves is [/hello/]. *)
Lemma resolve_urlpatterns_inv path_info p :
  resolve urls.urlpatterns path_info = Ok p →
  path_info = "/hello/" ∧ p = url_path "hello/" views.say_hello.
Proof.
  unfold resolve. destruct path_info as [|c rest]; [done |].
  destruct (decide (c = "/"%char)) as [-> | Hc].
  - simpl. unfold route_match. case_bool_decide as Hr; [| done].
    simpl in Hr. subst rest. by intros [= <-].
  - destruct c as [[] [] [] [] [] [] [] []]; try done.
Qed.

Lemma say_hello_context_name ps request :
  make_context ps request {[ "name" := VStr "Mostafa" ]} !! "name"
  = Some (VStr "Mostafa").
Proof. apply make_context_view_first, lookup_singleton_eq. Qed.

(** When the template only interpolates [name], the context processors
    and the builtins have no part in the text. *)
Lemma render_nodelist_only_name ps request (t : list node) :
  (∀ var, VariableNode var ∈ t → var = "name") →
  render_nodelist (make_context ps request {[ "name" := VStr "Mostafa" ]}) t
  = render_nodelist {[ "name" := VStr "Mostafa" ]} t.
Proof.
  induction t as [|n t IH]; intros Hvars; [reflexivity |].
  simpl. rewrite IH.
  2:{ intros var Hvar. apply Hvars, elem_of_cons. by right. }
  f_equal. destruct n as [s | var]; [reflexivity |]. simpl.
  rewrite (Hvars var) by (apply elem_of_cons; by left).
  by rewrite say_hello_context_name, lookup_singleton_eq.
Qed.

(** C1: every GET request to [/hello/] gets a successful response whose body
    has the text "Mostafa", for any [hello.html] that keeps the template
    contract of interpolating [name]. *)
Theorem hello_greets_Mostafa (cfg : settings) (request : HttpRequest)
    (t : list node) :
  templates cfg !! "hello.html" = Some t →
  VariableNode "name" ∈ t →
  method request = "GET" →
  path request = "/hello/" →
  ∃ response,
    application request cfg = Ok response ∧
    status_code response = 200 ∧
    contains "Mostafa" (content response).
Proof.
  intros Ht Hname _ Hpath.
  unfold application, ROOT_URLCONF, get_response.
  rewrite Hpath, resolve_hello. simpl. unfold views.say_hello.
  rewrite (render_found _ _ _ _ t Ht).
  eexists; split; [reflexivity |]. split; [reflexivity |]. simpl.
  pose proof (render_nodelist_contains
    (make_context (context_processors cfg) request
       {[ "name" := VStr "Mostafa" ]}) _ _ Hname) as Hc.
  simpl in Hc. by rewrite say_hello_context_name in Hc.
Qed.

Lemma hello_greets_Mostafa_witness :
  ∃ response,
    application sample.get_hello sample.cfg = Ok response ∧
    status_code response = 200 ∧
    contains "Mostafa" (content response).
Proof.
  apply (hello_greets_Mostafa sample.cfg sample.get_hello sample.hello_html).
  - reflexivity.
  - apply elem_of_cons; right. apply elem_of_cons; by left.
  - reflexivity.
  - reflexivity.
Defined.

(** C2, as stated, fails: the route is not GET-only.  The path of a POST
    request to [/hello/], with a query string and headers, resolves to the
    pattern of [say_hello], as that of a GET request does. *)
Lemma route_not_GET_only :
  method sample.post_hello ≠ "GET" ∧
  resolve urls.urlpatterns (path sample.post_hello)
    = Ok (url_path "hello/" views.say_hello) ∧
  ¬ (∀ request p,
       resolve urls.urlpatterns (path request) = Ok p →
       method request = "GET").
Proof.
  split; [done |]. split; [reflexivity |].
  intros H. by specialize (H sample.post_hello _ resolve_hello).
Qed.

(** C2, amended: the URL configuration is a list of exactly one pattern,
    route "hello/" with handler [say_hello]; it resolves the path [/hello/]
    and no other, for every HTTP method; and the handler a resolved request
    is given to is the call of [render] with the template name "hello.html"
    and the context binding [name], whatever the method, the query
    parameters and the headers of the request. *)
Theorem urlpatterns_single_route :
  (∃ p, urls.urlpatterns = [p] ∧
        route p = "hello/" ∧ callback p = views.say_hello) ∧
  (∀ request,
     path request = "/hello/" →
     resolve urls.urlpatterns (path request)
       = Ok (url_path "hello/" views.say_hello)) ∧
  (∀ request p,
     resolve urls.urlpatterns (path request) = Ok p →
     path request = "/hello/") ∧
  (∀ request p,
     resolve urls.urlpatterns (path request) = Ok p →
     callback p request
       = render request "hello.html" {[ "name" := VStr "Mostafa" ]}).
Proof.
  split; [by eexists |]. split; [by intros request -> |].
  split; [intros request p H; by apply resolve_urlpatterns_inv in H as [? _] |].
  intros request p H. by apply resolve_urlpatterns_inv in H as [_ ->].
Qed.

Lemma urlpatterns_single_route_witness :
  callback (url_path "hello/" views.say_hello) sample.post_hello
  = render sample.post_hello "hello.html" {[ "name" := VStr "Mostafa" ]}.
Proof.
  apply (proj2 (proj2 (proj2 urlpatterns_single_route)) sample.post_hello).
  reflexivity.
Defined.

(** C3: for every request, [say_hello] renders the template named
    "hello.html", and the context it passes binds the key "name" to a text
    value, which is also what the template sees under that key. *)
Theorem say_hello_renders_hello_html :
  ∃ (context : gmap string value) (s : string),
    context !! "name" = Some (VStr s) ∧
    ∀ request cfg,
      views.say_hello request cfg = render request "hello.html" context cfg ∧
      make_context (context_processors cfg) request context !! "name"
        = Some (VStr s) ∧
      match templates cfg !! "hello.html" with
      | Some t =>
          views.say_hello request cfg =
            Ok {| status_code := 200;
                  content := render_nodelist
                    (make_context (context_processors cfg) request context) t |}
      | None =>
          views.say_hello request cfg
            = Raise (TemplateDoesNotExist "hello.html")
      end.
Proof.
  exists {[ "name" := VStr "Mostafa" ]}, "Mostafa".
  split; [apply lookup_singleton_eq |].
  intros request cfg. split; [reflexivity |].
  split; [apply say_hello_context_name |].
  unfold views.say_hello.
  destruct (templates cfg !! "hello.html") as [t |] eqn:Ht.
  - by apply render_found.
  - by apply render_missing.
Qed.




(** C7: [say_hello] has one unconditional path, the return of the rendered
    template: the same call for every request.  It raises no error of its
    own: it succeeds whenever the loader finds "hello.html", and the only
    exception that leaves it is the loader's [TemplateDoesNotExist]. *)
Theorem say_hello_single_path :
  (∀ request,
     views.say_hello request
       = render request "hello.html" {[ "name" := VStr "Mostafa" ]}) ∧
  (∀ request cfg,
     is_Some (templates cfg !! "hello.html") →
     ∃ response, views.say_hello request cfg = Ok response ∧
                 status_code response = 200) ∧
  (∀ request cfg e,
     views.say_hello request cfg = Raise e →
     e = TemplateDoesNotExist "hello.html" ∧
     get_template cfg "hello.html" = Raise e).
Proof.
  split; [reflexivity |]. split.
  - intros request cfg [t Ht]. unfold views.say_hello.
    rewrite (render_found _ _ _ _ t Ht). by eexists.
  - intros request cfg e. unfold views.say_hello, render, get_template.
    destruct (templates cfg !! "hello.html"); simpl; [done |].
    by intros [= <-].
Qed.

Lemma say_hello_single_path_witness :
  TemplateDoesNotExist "hello.html" = TemplateDoesNotExist "hello.html" ∧
  get_template sample.no_templates "hello.html"
    = Raise (TemplateDoesNotExist "hello.html").
Proof.
  apply (proj2 (proj2 say_hello_single_path) sample.get_hello).
  reflexivity.
Defined.

End playground_properties.

(** * Properties of [tags] *)

Section tags_properties.
Import models tags.

Lemma collect_cascade {A} (refers : A → bool) (table : gmap Z A) :
  collect CASCADE refers table
  = Ok (filter (λ kv, refers kv.2 = false) table).
Proof. reflexivity. Qed.

(** Whatever the policy, the collector only removes rows. *)
Lemma collect_subseteq {A} policy (refers : A → bool) (table table' : gmap Z A) :
  collect policy refers table = Ok table' → table' ⊆ table.
Proof.
  destruct policy; simpl.
  - intros [= <-]. apply map_filter_subseteq.
  - case_bool_decide; [by intros [= <-] | done].
  - case_bool_decide; [by intros [= <-] | done].
Qed.

Lemma exec_initial_save_tag :
  exec sample.initial (SaveTag None 1 sample.sale) = Ok sample.with_tag.
Proof. by vm_compute. Qed.

Lemma exec_with_tag_save_item :
  exec sample.with_tag (SaveTaggedItem None 1 sample.product_99)
  = Ok sample.with_item.
Proof. by vm_compute. Qed.

Lemma reachable_with_tag : reachable sample.with_tag.
Proof.
  eapply reach_step; [| exact exec_initial_save_tag].
  by apply reach_init.
Qed.

Lemma reachable_with_item : reachable sample.with_item.
Proof.
  eapply reach_step; [exact reachable_with_tag | exact exec_with_tag_save_item].
Qed.

Lemma reachable_pg_with_tag : reachable sample.pg_with_tag.
Proof.
  apply (reach_step sample.pg_initial (SaveTag None 1 sample.sale));
    [by apply reach_init | by vm_compute].
Qed.

Lemma reachable_with_long_tag : reachable sample.with_long_tag.
Proof.
  apply (reach_step sample.initial (SaveTag None 1 sample.too_long));
    [by apply reach_init | by vm_compute].
Qed.

(** On PostgreSQL the label column never holds more than 255 characters. *)
Lemma text_column_label_PostgreSQL s stored :
  text_column PostgreSQL Tag_label s = Ok stored → (length stored ≤ 255)%nat.
Proof.
  unfold text_column, Tag_label.
  case_bool_decide as Hlen; [intros [= <-]; lia |].
  destruct (forallb _ _); [| done].
  intros [= <-]. rewrite length_take. lia.
Qed.

(** Every engine refuses a negative [object_id]. *)
Lemma integer_column_object_id engine pks n stored :
  integer_column engine pks TaggedItem_object_id n = Ok stored →
  stored = n ∧ 0 ≤ n.
Proof.
  unfold integer_column, TaggedItem_object_id.
  destruct engine; (case_bool_decide; [| done]);
    (case_bool_decide; [| done]); by intros [= <-].
Qed.


Lemma primary_key_inv used pk generated k :
  primary_key used pk generated = Ok k →
  pk = Some k ∨ (pk = None ∧ k = generated ∧ generated ∉ used).
Proof.
  unfold primary_key. destruct pk as [k' |].
  - intros [= <-]. by left.
  - case_bool_decide; [done |]. intros [= <-]. by right.
Qed.

(** What each operation does to the tables of the app. *)
Lemma save_tag_inv db pk generated t k db' :
  save_tag db pk generated t = Ok (k, db') →
  ∃ stored,
    text_column (engine db) Tag_label (label t) = Ok stored ∧
    engine db' = engine db ∧
    tag_table db' = <[k := {| label := stored |}]> (tag_table db) ∧
    taggeditem_table db' = taggeditem_table db ∧
    contenttype_table db' = contenttype_table db.
Proof.
  unfold save_tag.
  destruct (text_column _ _ _) as [stored |]; simpl; [| done].
  destruct (primary_key _ _ _) as [k' |]; simpl; [| done].
  intros [= <- <-]. by exists stored.
Qed.

Lemma save_tagged_item_inv db pk generated item k db' :
  save_tagged_item db pk generated item = Ok (k, db') →
  tag item ∈ dom (tag_table db) ∧
  content_type item ∈ dom (contenttype_table db) ∧
  0 ≤ object_id item ∧
  engine db' = engine db ∧
  tag_table db' = tag_table db ∧
  taggeditem_table db' = <[k := item]> (taggeditem_table db) ∧
  contenttype_table db' = contenttype_table db.
Proof.
  unfold save_tagged_item.
  destruct (integer_column _ _ TaggedItem_object_id _) as [n |] eqn:Hid;
    simpl; [| done].
  apply integer_column_object_id in Hid as [_ Hid].
  destruct (primary_key _ _ _) as [k' |]; simpl; [| done].
  unfold integer_column, TaggedItem_tag, TaggedItem_content_type. simpl.
  case_bool_decide as Htag; simpl; [| done].
  case_bool_decide as Hct; simpl; [| done].
  intros [= <- <-]. by simpl.
Qed.


Lemma exec_engine db o db' : exec db o = Ok db' → engine db' = engine db.
Proof.
  destruct o as [pk g t | pk g it | k | k | k]; simpl.
  - destruct (save_tag db pk g t) as [[k d] |] eqn:Hs; simpl; [| done].
    intros [= <-]. by apply save_tag_inv in Hs as (? & _ & ? & _).
  - destruct (save_tagged_item db pk g it) as [[k d] |] eqn:Hs; simpl; [| done].
    intros [= <-]. by apply save_tagged_item_inv in Hs as (_ & _ & _ & ? & _).
  - unfold delete_tag. destruct (tag_table db !! k); [| by intros [= <-]].
    destruct (collect _ _ _); simpl; [| done]. by intros [= <-].
  - unfold delete_tagged_item. by intros [= <-].
  - unfold delete_content_type.
    destruct (contenttype_table db !! k); [| by intros [= <-]].
    destruct (collect _ _ _); simpl; [| done]. by intros [= <-].
Qed.

(** Every operation leaves in the tagged-item table only rows that were
    there, or the row it was given to save. *)
Lemma exec_taggeditem_table db o db' i item :
  exec db o = Ok db' →
  taggeditem_table db' !! i = Some item →
  taggeditem_table db !! i = Some item ∨
  (∃ pk generated, o = SaveTaggedItem pk generated item ∧ 0 ≤ object_id item).
Proof.
  destruct o as [pk g t | pk g it | k | k | k]; simpl.
  - destruct (save_tag db pk g t) as [[k d] |] eqn:Hs; simpl; [| done].
    intros [= <-]. apply save_tag_inv in Hs as (? & _ & _ & _ & -> & _).
    by left.
  - destruct (save_tagged_item db pk g it) as [[k d] |] eqn:Hs; simpl; [| done].
    intros [= <-].
    apply save_tagged_item_inv in Hs as (_ & _ & Hid & _ & _ & -> & _).
    destruct (decide (k = i)) as [-> | Hne].
    + rewrite lookup_insert_eq. intros [= ->]. right. by exists pk, g.
    + rewrite lookup_insert_ne by done. by left.
  - unfold delete_tag. destruct (tag_table db !! k); [| intros [= <-]; by left].
    destruct (collect _ _ _) as [items |] eqn:Hc; simpl; [| done].
    intros [= <-]. simpl. intros Hi. left.
    by eapply lookup_weaken, collect_subseteq.
  - unfold delete_tagged_item. intros [= <-]. simpl. intros Hi. left.
    apply lookup_delete_Some in Hi as [_ Hi]. done.
  - unfold delete_content_type.
    destruct (contenttype_table db !! k); [| intros [= <-]; by left].
    destruct (collect _ _ _) as [items |] eqn:Hc; simpl; [| done].
    intros [= <-]. simpl. intros Hi. left.
    by eapply lookup_weaken, collect_subseteq.
Qed.

(** The same for the tag table: a new row holds what the label column made
    of the label it was given. *)
Lemma exec_tag_table db o db' i t :
  exec db o = Ok db' →
  tag_table db' !! i = Some t →
  tag_table db !! i = Some t ∨
  (∃ given, text_column (engine db) Tag_label given = Ok (label t)).
Proof.
  destruct o as [pk g t0 | pk g it | k | k | k]; simpl.
  - destruct (save_tag db pk g t0) as [[k d] |] eqn:Hs; simpl; [| done].
    intros [= <-].
    apply save_tag_inv in Hs as (stored & Hcol & _ & -> & _ & _).
    destruct (decide (k = i)) as [-> | Hne].
    + rewrite lookup_insert_eq. intros [= <-]. right. by exists (label t0).
    + rewrite lookup_insert_ne by done. by left.
  - destruct (save_tagged_item db pk g it) as [[k d] |] eqn:Hs; simpl; [| done].
    intros [= <-].
    apply save_tagged_item_inv in Hs as (_ & _ & _ & _ & -> & _).
    by left.
  - unfold delete_tag. destruct (tag_table db !! k); [| intros [= <-]; by left].
    destruct (collect _ _ _) as [items |]; simpl; [| done].
    intros [= <-]. simpl. intros Hi. left.
    apply lookup_delete_Some in Hi as [_ Hi]. done.
  - unfold delete_tagged_item. intros [= <-]. by left.
  - unfold delete_content_type.
    destruct (contenttype_table db !! k); [| intros [= <-]; by left].
    destruct (collect _ _ _) as [items |]; simpl; [| done].
    intros [= <-]. by left.
Qed.

(** Referential integrity of the two foreign keys is kept by every
    operation: this is what the CASCADE policies are for. *)
Lemma exec_foreign_keys db o db' :
  foreign_keys_hold db → exec db o = Ok db' → foreign_keys_hold db'.
Proof.
  intros Hfk. destruct o as [pk g t | pk g it | k | k | k]; simpl.
  - destruct (save_tag db pk g t) as [[k d] |] eqn:Hs; simpl; [| done].
    intros [= <-].
    apply save_tag_inv in Hs as (stored & _ & _ & Htags & Hitems & Hcts).
    intros i item Hi. rewrite Hitems in Hi. rewrite Htags, Hcts.
    destruct (Hfk i item Hi) as [? ?]. split; [| done].
    rewrite dom_insert_L. set_solver.
  - destruct (save_tagged_item db pk g it) as [[k d] |] eqn:Hs; simpl; [| done].
    intros [= <-].
    apply save_tagged_item_inv in Hs
      as (Htag & Hct & _ & _ & Htags & Hitems & Hcts).
    intros i item Hi. rewrite Hitems in Hi. rewrite Htags, Hcts.
    destruct (decide (k = i)) as [-> | Hne].
    + rewrite lookup_insert_eq in Hi. by injection Hi as <-.
    + rewrite lookup_insert_ne in Hi by done. by apply (Hfk i).
  - unfold delete_tag. destruct (tag_table db !! k); [| by intros [= <-]].
    simpl. intros [= <-] i item Hi. simpl in *.
    apply map_lookup_filter_Some in Hi as [Hi Hk]. simpl in Hk.
    apply bool_decide_eq_false_1 in Hk.
    destruct (Hfk i item Hi) as [? ?]. split; [| done].
    rewrite dom_delete_L. set_solver.
  - unfold delete_tagged_item. intros [= <-] i item Hi. simpl in *.
    apply lookup_delete_Some in Hi as [_ Hi]. by apply (Hfk i).
  - unfold delete_content_type.
    destruct (contenttype_table db !! k); [| by intros [= <-]].
    simpl. intros [= <-] i item Hi. simpl in *.
    apply map_lookup_filter_Some in Hi as [Hi Hk]. simpl in Hk.
    apply bool_decide_eq_false_1 in Hk.
    destruct (Hfk i item Hi) as [? ?]. split; [done |].
    rewrite dom_delete_L. set_solver.
Qed.

Lemma reachable_foreign_keys db : reachable db → foreign_keys_hold db.
Proof.
  induction 1 as [db _ Hitems | db o db' _ IH Hexec].
  - intros i item Hi. by rewrite Hitems, lookup_empty in Hi.
  - by eapply exec_foreign_keys.
Qed.

(** C5: in every database state, deleting an existing Tag row succeeds and
    removes the row and every TaggedItem row whose [tag] refers to it, by
    the CASCADE policy declared on [TaggedItem.tag]; the other TaggedItem
    rows stay. *)
Theorem delete_tag_cascades (db : Database) (k : Z) (t : Tag) :
  tag_table db !! k = Some t →
  ∃ db',
    delete_tag db k = Ok db' ∧
    tag_table db' !! k = None ∧
    (∀ i item, taggeditem_table db !! i = Some item → tag item = k →
               taggeditem_table db' !! i = None) ∧
    (∀ i item, taggeditem_table db' !! i = Some item → tag item ≠ k) ∧
    (∀ i item, taggeditem_table db !! i = Some item → tag item ≠ k →
               taggeditem_table db' !! i = Some item).
Proof.
  intros Ht. unfold delete_tag, TaggedItem_tag. rewrite Ht. simpl.
  eexists; split; [reflexivity |]. simpl.
  split; [apply lookup_delete_eq |]. repeat split.
  - intros i item Hi Hk. apply map_lookup_filter_None. right.
    intros item' Hi'. simpl. rewrite Hi in Hi'. injection Hi' as <-.
    by rewrite bool_decide_eq_true_2.
  - intros i item Hi Hk. apply map_lookup_filter_Some in Hi as [_ Hf].
    simpl in Hf. by rewrite bool_decide_eq_true_2 in Hf.
  - intros i item Hi Hk. apply map_lookup_filter_Some. split; [done |].
    simpl. by apply bool_decide_eq_false_2.
Qed.

Lemma delete_tag_cascades_witness :
  ∃ db',
    delete_tag sample.with_item 1 = Ok db' ∧
    tag_table db' !! 1 = None ∧
    (∀ i item, taggeditem_table sample.with_item !! i = Some item →
               tag item = 1 → taggeditem_table db' !! i = None) ∧
    (∀ i item, taggeditem_table db' !! i = Some item → tag item ≠ 1) ∧
    (∀ i item, taggeditem_table sample.with_item !! i = Some item →
               tag item ≠ 1 → taggeditem_table db' !! i = Some item).
Proof.
  apply (delete_tag_cascades sample.with_item 1 sample.sale).
  reflexivity.
Defined.

(** C10: in every database state, deleting an existing ContentType row
    succeeds and removes the row and every TaggedItem row whose
    [content_type] refers to it, by the CASCADE policy declared on
    [TaggedItem.content_type]; the other TaggedItem rows stay. *)
Theorem delete_content_type_cascades (db : Database) (k : Z) (ct : ContentType) :
  contenttype_table db !! k = Some ct →
  ∃ db',
    delete_content_type db k = Ok db' ∧
    contenttype_table db' !! k = None ∧
    (∀ i item, taggeditem_table db !! i = Some item → content_type item = k →
               taggeditem_table db' !! i = None) ∧
    (∀ i item, taggeditem_table db' !! i = Some item → content_type item ≠ k) ∧
    (∀ i item, taggeditem_table db !! i = Some item → content_type item ≠ k →
               taggeditem_table db' !! i = Some item).
Proof.
  intros Hct. unfold delete_content_type, TaggedItem_content_type.
  rewrite Hct. simpl.
  eexists; split; [reflexivity |]. simpl.
  split; [apply lookup_delete_eq |]. repeat split.
  - intros i item Hi Hk. apply map_lookup_filter_None. right.
    intros item' Hi'. simpl. rewrite Hi in Hi'. injection Hi' as <-.
    by rewrite bool_decide_eq_true_2.
  - intros i item Hi Hk. apply map_lookup_filter_Some in Hi as [_ Hf].
    simpl in Hf. by rewrite bool_decide_eq_true_2 in Hf.
  - intros i item Hi Hk. apply map_lookup_filter_Some. split; [done |].
    simpl. by apply bool_decide_eq_false_2.
Qed.

Lemma delete_content_type_cascades_witness :
  ∃ db',
    delete_content_type sample.with_item 7 = Ok db' ∧
    contenttype_table db' !! 7 = None ∧
    (∀ i item, taggeditem_table sample.with_item !! i = Some item →
               content_type item = 7 → taggeditem_table db' !! i = None) ∧
    (∀ i item, taggeditem_table db' !! i = Some item → content_type item ≠ 7) ∧
    (∀ i item, taggeditem_table sample.with_item !! i = Some item →
               content_type item ≠ 7 → taggeditem_table db' !! i = Some item).
Proof.
  apply (delete_content_type_cascades sample.with_item 7
           {| app_label := "store"; model := "product" |}).
  reflexivity.
Defined.

(** C8, as stated, fails: [save] runs no validation of [max_length], and
    SQLite does not enforce the width of the column, so a Tag with a label
    of 256 characters is stored. *)
Lemma long_label_stored :
  reachable sample.with_long_tag ∧
  tag_table sample.with_long_tag !! 1 = Some sample.too_long ∧
  length (label sample.too_long) = 256%nat ∧
  ¬ (∀ db, reachable db →
       ∀ k t, tag_table db !! k = Some t → (length (label t) ≤ 255)%nat).
Proof.
  split; [exact reachable_with_long_tag |].
  split; [reflexivity |]. split; [reflexivity |].
  intros H.
  specialize (H sample.with_long_tag reachable_with_long_tag 1
                sample.too_long eq_refl).
  vm_compute in H. lia.
Qed.

(** C8, amended: on a database that enforces the declared width of the
    column (PostgreSQL), every stored Tag has a label of at most 255
    characters: it holds of every state the operations reach. *)
Theorem stored_label_max_length (db : Database) :
  reachable db →
  engine db = PostgreSQL →
  ∀ k t, tag_table db !! k = Some t → (length (label t) ≤ 255)%nat.
Proof.
  induction 1 as [db Htags _ | db o db' _ IH Hexec]; intros Hpg k t Hk.
  - by rewrite Htags, lookup_empty in Hk.
  - pose proof (exec_engine _ _ _ Hexec) as Heng. rewrite Hpg in Heng.
    destruct (exec_tag_table _ _ _ _ _ Hexec Hk) as [Hold | (given & Hcol)].
    + by eapply IH.
    + rewrite <- Heng in Hcol. by eapply text_column_label_PostgreSQL.
Qed.

Lemma stored_label_max_length_witness :
  (length (label sample.sale) ≤ 255)%nat.
Proof.
  apply (stored_label_max_length sample.pg_with_tag reachable_pg_with_tag
           eq_refl 1).
  reflexivity.
Defined.

(** C9: every stored TaggedItem has a non-negative [object_id]: it holds of
    every state the operations reach, so none of them produces a stored
    row with a negative one. *)
Theorem stored_object_id_nonneg (db : Database) :
  reachable db →
  ∀ k item, taggeditem_table db !! k = Some item → 0 ≤ object_id item.
Proof.
  induction 1 as [db _ Hitems | db o db' _ IH Hexec]; intros k item Hk.
  - by rewrite Hitems, lookup_empty in Hk.
  - destruct (exec_taggeditem_table _ _ _ _ _ Hexec Hk)
      as [Hold | (pk & generated & _ & Hid)].
    + by eapply IH.
    + lia.
Qed.

Lemma stored_object_id_nonneg_witness :
  0 ≤ object_id sample.product_99.
Proof.
  apply (stored_object_id_nonneg sample.with_item reachable_with_item 1).
  reflexivity.
Defined.




End tags_properties.

(** * Further properties of [playground] *)

Section playground_outcomes.
Import django.

(** X1: a path other than [/hello/] resolves to no view: for every rest of
    the path after the leading slash that is not "hello/", the resolver
    raises [Resolver404], which carries that rest. *)
Theorem other_paths_not_found (rest : string) :
  rest ≠ "hello/" →
  resolve urls.urlpatterns (String "/"%char rest) = Raise (Resolver404 rest).
Proof.
  intros Hrest. unfold resolve. simpl. unfold route_match. simpl.
  by rewrite bool_decide_eq_false_2 by auto.
Qed.

Lemma other_paths_not_found_witness :
  resolve urls.urlpatterns (path sample.get_goodbye)
  = Raise (Resolver404 "goodbye/").
Proof.
  apply (other_paths_not_found "goodbye/").
  done.
Defined.

(** X4: when "hello.html" interpolates no variable other than [name], the
    body [say_hello] returns is the template's text with "Mostafa" at each
    [{{ name }}]: nothing of the request and nothing the context processors
    provide reaches the response. *)
Theorem say_hello_body_fixed (request : HttpRequest) (cfg : settings)
    (t : list node) :
  templates cfg !! "hello.html" = Some t →
  (∀ var, VariableNode var ∈ t → var = "name") →
  views.say_hello request cfg =
    Ok {| status_code := 200;
          content := render_nodelist {[ "name" := VStr "Mostafa" ]} t |}.
Proof.
  intros Ht Hvars. unfold views.say_hello.
  rewrite (render_found _ _ _ _ t Ht).
  by rewrite render_nodelist_only_name.
Qed.

Lemma say_hello_body_fixed_witness :
  views.say_hello sample.post_hello sample.cfg =
    Ok {| status_code := 200;
          content := render_nodelist {[ "name" := VStr "Mostafa" ]}
                       sample.hello_html |}.
Proof.
  apply (say_hello_body_fixed sample.post_hello sample.cfg sample.hello_html).
  - reflexivity.
  - intros var Hvar.
    apply elem_of_cons in Hvar as [[=] | Hvar].
    apply elem_of_cons in Hvar as [[= ->] | Hvar]; [reflexivity |].
    apply elem_of_cons in Hvar as [[=] | Hvar].
    by apply elem_of_nil in Hvar.
Defined.

End playground_outcomes.

(** * Further properties of [tags] *)

Section tags_operations.
Import models tags.

Lemma filter_filter_comm {A} (P Q : Z * A → Prop)
    `{!∀ x, Decision (P x)} `{!∀ x, Decision (Q x)} (m : gmap Z A) :
  filter P (filter Q m) = filter Q (filter P m).
Proof.
  apply map_eq. intros i. apply option_eq. intros x.
  rewrite !map_lookup_filter_Some. tauto.
Qed.

Lemma rows_of_tag db :
  rows_of db {| app_label := "tags"; model := "tag" |} = dom (tag_table db).
Proof. reflexivity. Qed.

(** X9: deleting a Tag a second time changes nothing: once the row is
    gone, [delete] of its key is the identity. *)
Theorem delete_tag_idempotent (db db' : Database) (k : Z) :
  delete_tag db k = Ok db' → delete_tag db' k = Ok db'.
Proof.
  unfold delete_tag at 1.
  destruct (tag_table db !! k) eqn:Hk.
  - simpl. intros [= <-]. unfold delete_tag. simpl.
    by rewrite lookup_delete_eq.
  - intros [= <-]. unfold delete_tag. by rewrite Hk.
Qed.

Lemma delete_tag_idempotent_witness :
  delete_tag sample.initial 1 = Ok sample.initial.
Proof.
  apply (delete_tag_idempotent sample.with_item sample.initial 1).
  by vm_compute.
Defined.

(** X10: the cascade follows the [tag] foreign key only.  A TaggedItem
    whose [content_object] is the Tag being deleted, through
    [(content_type, object_id)], and whose own tag is another one, is not
    removed: it stays in the table and its generic reference, which
    resolved before, now resolves to nothing. *)
Theorem delete_tag_leaves_generic_reference (db : Database) (k i : Z)
    (t : Tag) (item : TaggedItem) :
  tag_table db !! k = Some t →
  taggeditem_table db !! i = Some item →
  tag item ≠ k →
  contenttype_table db !! content_type item
    = Some {| app_label := "tags"; model := "tag" |} →
  object_id item = k →
  content_object db item = Some ({| app_label := "tags"; model := "tag" |}, k) ∧
  ∃ db',
    delete_tag db k = Ok db' ∧
    taggeditem_table db' !! i = Some item ∧
    content_object db' item = None.
Proof.
  intros Ht Hi Hne Hct Hid. split.
  - unfold content_object. rewrite Hct, rows_of_tag, Hid.
    rewrite bool_decide_eq_true_2; [done |]. by apply elem_of_dom.
  - unfold delete_tag, TaggedItem_tag. rewrite Ht. simpl.
    eexists; split; [reflexivity |]. simpl. split.
    + apply map_lookup_filter_Some. split; [done |]. simpl.
      by apply bool_decide_eq_false_2.
    + unfold content_object. simpl. rewrite Hct, rows_of_tag, Hid. simpl.
      rewrite bool_decide_eq_false_2; [done |].
      rewrite dom_delete_L, elem_of_difference, elem_of_singleton. tauto.
Qed.

Lemma delete_tag_leaves_generic_reference_witness :
  content_object sample.tagged_tags sample.tag_on_tag
    = Some ({| app_label := "tags"; model := "tag" |}, 1) ∧
  ∃ db',
    delete_tag sample.tagged_tags 1 = Ok db' ∧
    taggeditem_table db' !! 1 = Some sample.tag_on_tag ∧
    content_object db' sample.tag_on_tag = None.
Proof.
  apply (delete_tag_leaves_generic_reference sample.tagged_tags 1 1
           sample.sale sample.tag_on_tag).
  - by vm_compute.
  - by vm_compute.
  - by vm_compute.
  - by vm_compute.
  - by vm_compute.
Defined.

(** X11: the two cascading deletions commute: deleting a Tag and then a
    ContentType leaves the same database, or fails the same way, as
    deleting the ContentType and then the Tag. *)
Theorem delete_tag_content_type_commute (db : Database) (k c : Z) :
  (try! d := delete_tag db k in delete_content_type d c)
  = (try! d := delete_content_type db c in delete_tag d k).
Proof.
  unfold delete_tag, delete_content_type, TaggedItem_tag,
    TaggedItem_content_type.
  destruct (tag_table db !! k) as [t |] eqn:Hk;
    destruct (contenttype_table db !! c) as [ct |] eqn:Hc;
    simpl; rewrite ?Hk, ?Hc; simpl; try reflexivity.
  do 2 f_equal. apply filter_filter_comm.
Qed.

(** X12: referential integrity is an invariant: in every state the
    operations reach, the Tag and the ContentType that a stored TaggedItem
    names exist.  The CASCADE policy of the two foreign keys is what keeps
    it across deletions. *)
Theorem stored_foreign_keys_resolve (db : Database) :
  reachable db →
  ∀ i item, taggeditem_table db !! i = Some item →
    is_Some (tag_table db !! tag item) ∧
    is_Some (contenttype_table db !! content_type item).
Proof.
  intros Hreach i item Hi.
  destruct (reachable_foreign_keys db Hreach i item Hi) as [Htag Hct].
  split; by apply elem_of_dom.
Qed.

Lemma stored_foreign_keys_resolve_witness :
  is_Some (tag_table sample.with_item !! tag sample.product_99) ∧
  is_Some (contenttype_table sample.with_item
             !! content_type sample.product_99).
Proof.
  apply (stored_foreign_keys_resolve sample.with_item reachable_with_item 1).
  reflexivity.
Defined.

End tags_operations.
